(** * Telemetry-to-position pipeline of the heat-map generator

    A shallow embedding of [heatmap/preprocessing.py] and
    [heatmap/processing.py].  The pipeline is written with pandas; every
    pandas call of the source ([json_normalize], [melt], [str.extract],
    [dropna], [astype], [merge], [pivot], [loc], [apply]) is embedded as a
    list function with the behaviour pandas 2.x has on the shapes the source
    feeds it, and a Python exception is a [Raise] in a small error monad.

    Conventions of the embedding:
    - a Python dict is an association list; as in a Python dict its keys are
      meant to be pairwise distinct, and so are the dotted names of distinct
      leaves of one frame;
    - a JSON number is a rational ([Q]): Python's int arithmetic and true
      division are exact there, binary floating-point rounding is not
      modelled;
    - the leaves of a metric tree are numbers, strings and arrays;
    - NaN, pandas' missing-value marker, is [None];
    - [\w] of the regular expression is the ASCII class [A-Za-z0-9_]. *)

From Stdlib Require Import List String Ascii ZArith QArith Bool Lia Lqa.
From Stdlib Require Import DecimalString.
From Stdlib Require Import Sorted.
Import ListNotations.

Set Warnings "-register-all".

(** ** Exceptions *)

Inductive exn : Type := KeyError | TypeError | ValueError.

Inductive result (A : Type) : Type :=
| Ok (a : A)
| Raise (e : exn).

Arguments Ok {A} a.
Arguments Raise {A} e.

Definition bind {A B : Type} (c : result A) (k : A -> result B) : result B :=
  match c with
  | Ok a => k a
  | Raise e => Raise e
  end.

Notation "x <- c ;; k" := (bind c (fun x => k))
  (at level 61, c at next level, right associativity).

Fixpoint mapM {A B : Type} (f : A -> result B) (l : list A) : result (list B) :=
  match l with
  | [] => Ok []
  | a :: l' => b <- f a ;; bs <- mapM f l' ;; Ok (b :: bs)
  end.

Definition is_ok {A : Type} (r : result A) : bool :=
  match r with Ok _ => true | Raise _ => false end.

(** ** Input documents *)

Inductive json : Type :=
| JNum (q : Q)
| JStr (s : string)
| JArr (l : list json)
| JObj (fields : list (string * json)).

(** A roster entry's [participantId] as the API or a test gives it. *)
Inductive pid : Type :=
| PInt (z : Z)
| PStr (s : string).

(** One element of [info.participants]; [None] is an absent key. *)
Record roster_entry : Type := {
  re_participantId : option pid;
  re_puuid : option string
}.

(** One element of [info.frames]: its [timestamp] (every frame has one), its
    [events] list when it has one, and the [participantFrames] dict (empty
    when absent). *)
Record frame : Type := {
  fr_timestamp : Z;
  fr_events : option (list json);
  fr_participantFrames : list (string * json)
}.

Record info : Type := {
  participants : option (list roster_entry);
  frames : option (list frame)
}.

(** A timeline document.  [tl_metadata] is [metadata.matchId]; [None] is a
    document without the [metadata] key; [tl_info = None] is a document
    without the [info] key. *)
Record match_timeline : Type := {
  tl_metadata : option string;
  tl_info : option info
}.

(** ** preprocessing.norma_x, preprocessing.norma_y *)

Definition norma_x (X : Q) : Q :=
  10 + ((X - 335) * (800 - 0)) / (14700 - 0).

Definition norma_y (Y : Q) : Q :=
  10 + ((Y - 335) * (800 - 0)) / (14700 - 0).

(** ** preprocessing.table_participant_id *)

Definition str_of_Z (z : Z) : string := NilZero.string_of_int (Z.to_int z).

(** [str] of the float an integer is widened to when its column holds a NaN
    (participant ids are small: below 10^16 Python prints no exponent). *)
Definition str_of_float_Z (z : Z) : string := (str_of_Z z ++ ".0")%string.

(** Row of the normalized roster table; [rix_metadata] is what
    [meta=['metadata']] with [errors='ignore'] pulled ([None] is NaN). *)
Record raw_index_row : Type := {
  rix_participantId : option pid;
  rix_puuid : option string;
  rix_metadata : option string
}.

Record index_row : Type := {
  ix_participantId : string;
  ix_matchId : string;
  ix_puuid : option string
}.

(** [json_normalize(record_path=['info','participants'], meta=['metadata'],
    errors='ignore')] on one document: a missing key of the record path is a
    KeyError whatever [errors] says, a missing [metadata] is NaN. *)
Definition pull_participants (t : match_timeline) : result (list raw_index_row) :=
  match tl_info t with
  | None => Raise KeyError
  | Some i =>
      match participants i with
      | None => Raise KeyError
      | Some l =>
          Ok (map (fun e => {| rix_participantId := re_participantId e;
                               rix_puuid := re_puuid e;
                               rix_metadata := tl_metadata t |}) l)
      end
  end.

Definition normalize_participants (tls : list match_timeline)
  : result (list raw_index_row) :=
  ls <- mapM pull_participants tls ;; Ok (List.concat ls).

(** [df['metadata'].apply(lambda x: x["matchId"])]: subscripting NaN is a
    TypeError. *)
Definition matchId_of_metadata (r : raw_index_row)
  : result (raw_index_row * string) :=
  match rix_metadata r with
  | Some m => Ok (r, m)
  | None => Raise TypeError
  end.

Definition is_PStr (o : option pid) : bool :=
  match o with Some (PStr _) => true | _ => false end.

Definition is_missing {A : Type} (o : option A) : bool :=
  match o with None => true | Some _ => false end.

Definition is_present {A : Type} (o : option A) : bool :=
  negb (is_missing o).

(** [df["participantId"].astype('str')].  The column's dtype decides the
    string form: object when a string is in it, float64 when it holds
    integers and a NaN, int64 otherwise. *)
Definition astype_str (col : list (option pid)) (v : option pid) : string :=
  match v with
  | None => "nan"%string
  | Some (PStr s) => s
  | Some (PInt z) =>
      if existsb is_PStr col then str_of_Z z
      else if existsb is_missing col then str_of_float_Z z
      else str_of_Z z
  end.

(** [df["participantId"]] is a KeyError when no roster entry has the key; that
    covers the empty input list, where [json_normalize] returns a frame
    without columns and [df['metadata']] is the KeyError. *)
Definition table_participant_id (timelines : list match_timeline)
  : result (list index_row) :=
  df <- normalize_participants timelines ;;
  rms <- mapM matchId_of_metadata df ;;
  let col := map rix_participantId df in
  if existsb is_present col then
    Ok (map (fun rm : raw_index_row * string =>
               {| ix_participantId :=
                    astype_str col (rix_participantId (fst rm));
                  ix_matchId := snd rm;
                  ix_puuid := rix_puuid (fst rm) |}) rms)
  else Raise KeyError.

(** ** preprocessing.table_frames *)

(** [nested_to_record] below the top level: a dict is flattened into dotted
    names, any other value is a leaf. *)
Fixpoint nested_to_record (prefix : string) (v : json) : list (string * json) :=
  match v with
  | JObj fields =>
      (fix go (fs : list (string * json)) : list (string * json) :=
         match fs with
         | [] => []
         | (k, v') :: fs' =>
             (nested_to_record (prefix ++ "." ++ k) v' ++ go fs')%list
         end) fields
  | _ => [(prefix, v)]
  end.

(** The flattened record of one frame, without its [timestamp]. *)
Definition frame_record (f : frame) : list (string * json) :=
  (match fr_events f with
   | Some l => [("events"%string, JArr l)]
   | None => []
   end
   ++ nested_to_record "participantFrames" (JObj (fr_participantFrames f)))%list.

Record frame_row : Type := {
  fw_timestamp : Z;
  fw_matchId : string;
  fw_record : list (string * json)
}.

(** [json_normalize(record_path=["info","frames"], meta=["metadata"])] on
    one document; [errors] is 'raise' here. *)
Definition pull_frames (t : match_timeline) : result (list frame_row) :=
  match tl_metadata t with
  | None => Raise KeyError
  | Some m =>
      match tl_info t with
      | None => Raise KeyError
      | Some i =>
          match frames i with
          | None => Raise KeyError
          | Some l =>
              Ok (map (fun f => {| fw_timestamp := fr_timestamp f;
                                   fw_matchId := m;
                                   fw_record := frame_record f |}) l)
          end
      end
  end.

Definition normalize_frames (tls : list match_timeline) : result (list frame_row) :=
  ls <- mapM pull_frames tls ;; Ok (List.concat ls).

(** Keeps the first occurrence of every element. *)
Fixpoint uniq {A : Type} (eqb : A -> A -> bool) (l : list A) : list A :=
  match l with
  | [] => []
  | a :: l' => a :: filter (fun b => negb (eqb b a)) (uniq eqb l')
  end.

(** The value columns [melt] walks: every name of a record in order of first
    appearance, then the [metadata] column. *)
Definition value_columns (rows : list frame_row) : list string :=
  (uniq String.eqb (flat_map (fun r => map fst (fw_record r)) rows)
   ++ ["metadata"%string])%list.

Fixpoint lookup (k : string) (d : list (string * json)) : option json :=
  match d with
  | [] => None
  | (k', v) :: d' => if String.eqb k' k then Some v else lookup k d'
  end.

Definition cell_of (r : frame_row) (c : string) : option json :=
  if String.eqb c "metadata"
  then Some (JObj [("matchId"%string, JStr (fw_matchId r))])
  else lookup c (fw_record r).

Record melted : Type := {
  me_timestamp : Z;
  me_matchId : string;
  me_variable : string;
  me_value : option json
}.

(** [df.melt(["timestamp","matchId"])]: column by column, one row per frame;
    a frame without the column gives a NaN value. *)
Definition melt (rows : list frame_row) : list melted :=
  flat_map (fun c =>
    map (fun r => {| me_timestamp := fw_timestamp r;
                     me_matchId := fw_matchId r;
                     me_variable := c;
                     me_value := cell_of r c |}) rows)
    (value_columns rows).

(** The pattern of [str.extract]:
    [(?P<frames>\w+)\.(?P<participantId>\w+)\.(?P<metric>\w+)\.(?P<metric2>.+)],
    searched for as [re.search] does: leftmost start, greedy groups. *)
Definition is_word (c : ascii) : bool :=
  let n := nat_of_ascii c in
  ((48 <=? n) && (n <=? 57) || (65 <=? n) && (n <=? 90)
   || (97 <=? n) && (n <=? 122) || (n =? 95))%nat.

(** [.] matches every character but the newline. *)
Definition is_dot_char (c : ascii) : bool :=
  negb (nat_of_ascii c =? 10)%nat.

Fixpoint span (p : ascii -> bool) (s : string) : string * string :=
  match s with
  | EmptyString => (EmptyString, EmptyString)
  | String c s' =>
      if p c then let (a, b) := span p s' in (String c a, b)
      else (EmptyString, s)
  end.

(** [\w+\.] at the head of [s]: the group and what follows the dot.  A run of
    word characters shorter than the longest is followed by a word character,
    never by the dot, so only the longest run can match. *)
Definition word_dot (s : string) : option (string * string) :=
  match span is_word s with
  | (EmptyString, _) => None
  | (w, String c r) => if Ascii.eqb c "."%char then Some (w, r) else None
  | (_, EmptyString) => None
  end.

Definition match_here (s : string)
  : option (string * string * string * string) :=
  match word_dot s with
  | None => None
  | Some (g1, r1) =>
      match word_dot r1 with
      | None => None
      | Some (g2, r2) =>
          match word_dot r2 with
          | None => None
          | Some (g3, r3) =>
              match span is_dot_char r3 with
              | (EmptyString, _) => None
              | (g4, _) => Some (g1, g2, g3, g4)
              end
          end
      end
  end.

Fixpoint str_extract (s : string)
  : option (string * string * string * string) :=
  match match_here s with
  | Some g => Some g
  | None =>
      match s with
      | EmptyString => None
      | String _ s' => str_extract s'
      end
  end.

Record flat_event : Type := {
  ev_timestamp : Z;
  ev_matchId : string;
  ev_frames : string;
  ev_participantId : string;
  ev_metric : string;
  ev_metric2 : string;
  ev_value : option json
}.

(** [str.extract] then [dropna(subset=["frames"])] on one melted row. *)
Definition extract_row (m : melted) : list flat_event :=
  match str_extract (me_variable m) with
  | Some (g1, g2, g3, g4) =>
      [{| ev_timestamp := me_timestamp m;
          ev_matchId := me_matchId m;
          ev_frames := g1;
          ev_participantId := g2;
          ev_metric := g3;
          ev_metric2 := g4;
          ev_value := me_value m |}]
  | None => []
  end.

(** Without any frame the normalized table has no [timestamp] column and
    [melt] raises KeyError (so does [df['metadata']] on an empty input
    list). *)
Definition table_frames (timelines : list match_timeline)
  : result (list flat_event) :=
  df <- normalize_frames timelines ;;
  match df with
  | [] => Raise KeyError
  | _ => Ok (flat_map extract_row (melt df))
  end.

(** ** processing.get_user_position *)

Record joined : Type := {
  jn_event : flat_event;
  jn_puuid : option string
}.

Definition same_key (e : flat_event) (r : index_row) : bool :=
  String.eqb (ix_participantId r) (ev_participantId e)
  && String.eqb (ix_matchId r) (ev_matchId e).

(** [df.merge(df_participantId, "left", on=["participantId", "matchId"])]:
    one row per matching index row, one row with a NaN identity when none
    matches. *)
Definition merge_row (ix : list index_row) (e : flat_event) : list joined :=
  match filter (same_key e) ix with
  | [] => [{| jn_event := e; jn_puuid := None |}]
  | ms => map (fun r => {| jn_event := e; jn_puuid := ix_puuid r |}) ms
  end.

Definition merge_left (df : list flat_event) (ix : list index_row)
  : list joined :=
  flat_map (merge_row ix) df.

Definition is_position (j : joined) : bool :=
  String.eqb (ev_metric (jn_event j)) "position".

(** Index of the pivot: (puuid, matchId, timestamp). *)
Definition pindex : Type := (option string * string * Z)%type.

Definition opt_eqb (a b : option string) : bool :=
  match a, b with
  | Some x, Some y => String.eqb x y
  | None, None => true
  | _, _ => false
  end.

Definition pindex_eqb (a b : pindex) : bool :=
  let '(p1, m1, t1) := a in
  let '(p2, m2, t2) := b in
  opt_eqb p1 p2 && String.eqb m1 m2 && Z.eqb t1 t2.

Definition pindex_of (j : joined) : pindex :=
  (jn_puuid j, ev_matchId (jn_event j), ev_timestamp (jn_event j)).

(** Same index entry and same column of the pivot. *)
Definition same_entry (a b : joined) : bool :=
  pindex_eqb (pindex_of a) (pindex_of b)
  && String.eqb (ev_metric2 (jn_event a)) (ev_metric2 (jn_event b)).

Fixpoint has_dup (l : list joined) : bool :=
  match l with
  | [] => false
  | a :: l' => existsb (same_entry a) l' || has_dup l'
  end.

(** [pivot(index=["puuid","matchId","timestamp"], columns="metric2",
    values="value")]: KeyError without a [puuid] column (no roster entry has
    the key), ValueError ("Index contains duplicate entries") when two rows
    share index and column; NaN identities group like any other label.  The
    pivoted table is kept as its rows; [pv_cell] reads a cell. *)
Definition pivot (puuid_column : bool) (rows : list joined)
  : result (list joined) :=
  if puuid_column then
    if has_dup rows then Raise ValueError else Ok rows
  else Raise KeyError.

Definition pv_cell (pv : list joined) (i : pindex) (c : string)
  : option json :=
  match find (fun j => pindex_eqb (pindex_of j) i
                       && String.eqb (ev_metric2 (jn_event j)) c) pv with
  | Some j => ev_value (jn_event j)
  | None => None
  end.

Definition pv_has_column (pv : list joined) (c : string) : bool :=
  existsb (fun j => String.eqb (ev_metric2 (jn_event j)) c) pv.

(** Index of the output table: (matchId, timestamp). *)
Definition okey : Type := (string * Z)%type.

Definition okey_eqb (a b : okey) : bool :=
  String.eqb (fst a) (fst b) && Z.eqb (snd a) (snd b).

Definition okey_leb (a b : okey) : bool :=
  match String.compare (fst a) (fst b) with
  | Lt => true
  | Eq => Z.leb (snd a) (snd b)
  | Gt => false
  end.

Fixpoint insert_key (k : okey) (l : list okey) : list okey :=
  match l with
  | [] => [k]
  | h :: t => if okey_leb k h then k :: l else h :: insert_key k t
  end.

(** The pivot sorts its index. *)
Definition sort_keys (l : list okey) : list okey :=
  fold_right insert_key [] l.

Definition has_puuid (puuid : string) (j : joined) : bool :=
  opt_eqb (jn_puuid j) (Some puuid).

(** [df_position.loc[puuid]]: the rows under the first-level label [puuid],
    KeyError when the label is not in the index. *)
Definition loc (puuid : string) (pv : list joined) : result (list okey) :=
  match filter (has_puuid puuid) pv with
  | [] => Raise KeyError
  | rows =>
      Ok (sort_keys
            (uniq okey_eqb
               (map (fun j => (ev_matchId (jn_event j),
                               ev_timestamp (jn_event j))) rows)))
  end.

(** One call of [norma_x] or [norma_y] by [apply]: NaN stays NaN, a value
    that is not a number is a TypeError in the subtraction. *)
Definition apply_norma (f : Q -> Q) (v : option json) : result (option Q) :=
  match v with
  | None => Ok None
  | Some (JNum q) => Ok (Some (f q))
  | Some _ => Raise TypeError
  end.

(** [table[c].apply(f)]: KeyError when the pivot has no column [c]. *)
Definition apply_column (f : Q -> Q) (c : string) (pv : list joined)
    (puuid : string) (keys : list okey) : result (list (option Q)) :=
  if pv_has_column pv c then
    mapM (fun k : okey => apply_norma f (pv_cell pv (Some puuid, fst k, snd k) c))
         keys
  else Raise KeyError.

(** Row of the returned table: index (matchId, timestamp), columns x, y.
    Further columns, which the pivot has when a position holds other leaves
    than x and y, pass through untouched and are left out. *)
Record position_row : Type := {
  o_matchId : string;
  o_timestamp : Z;
  o_x : option Q;
  o_y : option Q
}.

Fixpoint table_of (keys : list okey) (xs ys : list (option Q))
  : list position_row :=
  match keys, xs, ys with
  | k :: keys', x :: xs', y :: ys' =>
      {| o_matchId := fst k; o_timestamp := snd k; o_x := x; o_y := y |}
      :: table_of keys' xs' ys'
  | _, _, _ => []
  end.

(** The pipeline from the fetched documents on: [timeline] is the list the
    source builds with [api.get_match_timeline], [puuid] what [api.get_puuid]
    returned.  Lines 54-61 of the source repeat the body of [table_frames]. *)
Definition get_user_position (timeline : list match_timeline) (puuid : string)
  : result (list position_row) :=
  df_participantId <- table_participant_id timeline ;;
  df <- table_frames timeline ;;
  let df := merge_left df df_participantId in
  df_position <-
    pivot (existsb is_present (map ix_puuid df_participantId))
          (filter is_position df) ;;
  keys <- loc puuid df_position ;;
  xs <- apply_column norma_x "x" df_position puuid keys ;;
  ys <- apply_column norma_y "y" df_position puuid keys ;;
  Ok (table_of keys xs ys).

(** The body of [get_user_position] in two halves: everything up to the
    pivot, which never reads [puuid], and the selection of the player with
    the normalization. *)
Definition position_pivot (timeline : list match_timeline)
  : result (list joined) :=
  df_participantId <- table_participant_id timeline ;;
  df <- table_frames timeline ;;
  pivot (existsb is_present (map ix_puuid df_participantId))
        (filter is_position (merge_left df df_participantId)).

Definition select_player (puuid : string) (df_position : list joined)
  : result (list position_row) :=
  keys <- loc puuid df_position ;;
  xs <- apply_column norma_x "x" df_position puuid keys ;;
  ys <- apply_column norma_y "y" df_position puuid keys ;;
  Ok (table_of keys xs ys).

(** The roster entries of the documents, each with the [metadata] of its
    document, in document order. *)
Definition roster_of (timelines : list match_timeline)
  : list (roster_entry * option string) :=
  flat_map (fun t =>
    match tl_info t with
    | Some i =>
        match participants i with
        | Some l => map (fun e => (e, tl_metadata t)) l
        | None => []
        end
    | None => []
    end) timelines.

(** The raw index row of a roster entry. *)
Definition raw_of (em : roster_entry * option string) : raw_index_row :=
  {| rix_participantId := re_participantId (fst em);
     rix_puuid := re_puuid (fst em);
     rix_metadata := snd em |}.

(** The [participantId] column before [astype]. *)
Definition pid_column (timelines : list match_timeline) : list (option pid) :=
  map (fun em => re_participantId (fst em)) (roster_of timelines).






(** [j] is a row of the pivot in the group the returned row [row] stands
    for: identity [p], the row's match and timestamp. *)
Definition in_group (p : string) (row : position_row) (j : joined) : Prop :=
  jn_puuid j = Some p /\
  ev_matchId (jn_event j) = o_matchId row /\
  ev_timestamp (jn_event j) = o_timestamp row.

(** [x] occurs in [l] at some position and [y] at a later one. *)
Definition occurs_twice {A : Type} (x y : A) (l : list A) : Prop :=
  exists l1 l2 l3, l = (l1 ++ x :: l2 ++ y :: l3)%list.

(** ** Sample documents *)

Definition roster_entry_of (i : Z) (p : string) : roster_entry :=
  {| re_participantId := Some (PInt i); re_puuid := Some p |}.

Definition position_of (x y : Q) : json :=
  JObj [("position"%string, JObj [("x"%string, JNum x); ("y"%string, JNum y)])].

Definition document (m : string) (roster : list roster_entry)
    (fs : list frame) : match_timeline :=
  {| tl_metadata := Some m;
     tl_info := Some {| participants := Some roster; frames := Some fs |} |}.

(** One match, one player, one frame with a full position. *)
Definition scenario : list match_timeline :=
  [document "M" [roster_entry_of 1 "P1"]
     [{| fr_timestamp := 60000; fr_events := Some [];
         fr_participantFrames :=
           [("1"%string,
             JObj [("currentGold"%string, JNum 500);
                   ("position"%string,
                    JObj [("x"%string, JNum 1000); ("y"%string, JNum 2000)])])]
      |}]].


(** Participant 2 reports positions but is in no roster. *)
Definition unmatched_participant : list match_timeline :=
  [document "M" [roster_entry_of 1 "P1"]
     [{| fr_timestamp := 60000; fr_events := None;
         fr_participantFrames :=
           [("1"%string, position_of 1000 2000);
            ("2"%string, position_of 3000 4000)] |}]].


(** The second roster entry has no [puuid]. *)
Definition roster_without_puuid : list match_timeline :=
  [document "M"
     [roster_entry_of 1 "P1";
      {| re_participantId := Some (PInt 2); re_puuid := None |}]
     [{| fr_timestamp := 60000; fr_events := None;
         fr_participantFrames := [("1"%string, position_of 1000 2000)] |}]].

(** Two roster entries for participant 1, under the identities [p] and [q]. *)
Definition duplicate_roster (p q : string) : list match_timeline :=
  [document "M" [roster_entry_of 1 p; roster_entry_of 1 q]
     [{| fr_timestamp := 60000; fr_events := None;
         fr_participantFrames := [("1"%string, position_of 1000 2000)] |}]].

(** A document without the [frames] key. *)
Definition no_frames : match_timeline :=
  {| tl_metadata := Some "N"%string;
     tl_info := Some {| participants := Some [roster_entry_of 1 "P1"];
                        frames := None |} |}.

Definition scenario_table : list position_row :=
  [{| o_matchId := "M"; o_timestamp := 60000;
      o_x := Some (norma_x 1000); o_y := Some (norma_y 2000) |}].

(** The flat event of a position cell of [participantFrames]. *)
Definition position_event (t : Z) (m i sub : string) (v : Q) : flat_event :=
  {| ev_timestamp := t; ev_matchId := m; ev_frames := "participantFrames";
     ev_participantId := i; ev_metric := "position"; ev_metric2 := sub;
     ev_value := Some (JNum v) |}.

(** ** Further vocabulary for statements *)

(** Index entry of a returned row. *)
Definition okey_of (row : position_row) : okey :=
  (o_matchId row, o_timestamp row).

(** The frames of the documents, each with the [metadata] of its document,
    in document order. *)
Definition frames_of (timelines : list match_timeline)
  : list (frame * option string) :=
  flat_map (fun t =>
    match tl_info t with
    | Some i =>
        match frames i with
        | Some l => map (fun f => (f, tl_metadata t)) l
        | None => []
        end
    | None => []
    end) timelines.

(** The document has the regions [json_normalize] walks for the roster. *)
Definition has_roster (t : match_timeline) : bool :=
  match tl_info t with
  | Some i => is_present (participants i)
  | None => false
  end.

(** The document has the regions [json_normalize] walks for the frames. *)
Definition has_frames (t : match_timeline) : bool :=
  is_present (tl_metadata t) &&
  match tl_info t with
  | Some i => is_present (frames i)
  | None => false
  end.

(** The second frame has an empty participant map. *)
Definition empty_second_frame : list match_timeline :=
  [document "M" [roster_entry_of 1 "P1"]
     [{| fr_timestamp := 0; fr_events := None;
         fr_participantFrames := [("1"%string, position_of 1000 2000)] |};
      {| fr_timestamp := 60000; fr_events := None;
         fr_participantFrames := [] |}]].

(** ** The error monad *)

Lemma bind_ok {A B : Type} (c : result A) (k : A -> result B) (b : B) :
  bind c k = Ok b -> exists a, c = Ok a /\ k a = Ok b.
Proof.
  destruct c as [a|e]; simpl; intro H.
  - exists a. split; [reflexivity | exact H].
  - discriminate H.
Qed.

Lemma bind_raise {A B : Type} (c : result A) (k : A -> result B) (e : exn) :
  c = Raise e -> bind c k = Raise e.
Proof. intros ->. reflexivity. Qed.

Lemma mapM_ok {A B : Type} (f : A -> result B) (l : list A) (l' : list B) :
  mapM f l = Ok l' -> Forall2 (fun a b => f a = Ok b) l l'.
Proof.
  revert l'. induction l as [|a l IH]; simpl; intros l' H.
  - injection H as <-. constructor.
  - apply bind_ok in H. destruct H as (b & Hb & H).
    apply bind_ok in H. destruct H as (bs & Hbs & H).
    injection H as <-. constructor; [exact Hb | apply IH; exact Hbs].
Qed.

Lemma mapM_raise {A B : Type} (f : A -> result B) (l : list A) (a : A) (e : exn) :
  In a l -> f a = Raise e -> exists e', mapM f l = Raise e'.
Proof.
  induction l as [|x l IH]; simpl; intros Hin Hf.
  - contradiction.
  - destruct (f x) as [b|e0] eqn:Hx; simpl.
    + destruct Hin as [->|Hin]; [congruence|].
      destruct (IH Hin Hf) as (e' & ->). simpl. eauto.
    + eauto.
Qed.

Lemma mapM_raise_only {A B : Type} (f : A -> result B) (l : list A) (e0 e : exn) :
  (forall a e', f a = Raise e' -> e' = e0) ->
  mapM f l = Raise e -> e = e0.
Proof.
  intros Hf. induction l as [|x l IH]; simpl; intro H.
  - discriminate H.
  - destruct (f x) as [b|e1] eqn:Hx; simpl in H.
    + destruct (mapM f l) as [bs|e2]; simpl in H; [discriminate H|].
      injection H as <-. apply IH. reflexivity.
    + injection H as <-. eapply Hf. exact Hx.
Qed.

Lemma get_user_position_stages (tls : list match_timeline) (p : string) :
  get_user_position tls p = (pv <- position_pivot tls ;; select_player p pv).
Proof.
  unfold get_user_position, position_pivot, select_player.
  destruct (table_participant_id tls) as [ix|e]; simpl; [|reflexivity].
  destruct (table_frames tls) as [evs|e]; simpl; reflexivity.
Qed.

(** ** Keys, sorting and the selection of the player *)

Lemma opt_eqb_eq (a b : option string) : opt_eqb a b = true <-> a = b.
Proof.
  destruct a as [x|], b as [y|]; simpl; split; intro H;
    try discriminate; try reflexivity.
  - apply String.eqb_eq in H. congruence.
  - injection H as ->. apply String.eqb_refl.
Qed.

Lemma pindex_eqb_eq (a b : pindex) : pindex_eqb a b = true <-> a = b.
Proof.
  destruct a as [[p1 m1] t1], b as [[p2 m2] t2]. simpl.
  rewrite !andb_true_iff, opt_eqb_eq, String.eqb_eq, Z.eqb_eq.
  split.
  - intros [[-> ->] ->]. reflexivity.
  - intro H. injection H as -> -> ->. auto.
Qed.

Lemma okey_eqb_eq (a b : okey) : okey_eqb a b = true <-> a = b.
Proof.
  destruct a as [m1 t1], b as [m2 t2]. unfold okey_eqb. simpl.
  rewrite andb_true_iff, String.eqb_eq, Z.eqb_eq.
  split.
  - intros [-> ->]. reflexivity.
  - intro H. injection H as -> ->. auto.
Qed.

Section Uniq.
Variable A : Type.
Variable eqb : A -> A -> bool.
Hypothesis eqb_sound : forall x y, eqb x y = true -> x = y.

Lemma In_uniq (l : list A) (x : A) : In x (uniq eqb l) <-> In x l.
Proof.
  induction l as [|a l IH]; simpl; [tauto|].
  rewrite filter_In, IH. split.
  - intros [H|[H _]]; auto.
  - intros [H|H]; [auto|].
    destruct (eqb x a) eqn:E.
    + left. symmetry. apply eqb_sound. exact E.
    + right. split; [exact H | reflexivity].
Qed.
End Uniq.

Lemma In_insert_key (k x : okey) (l : list okey) :
  In x (insert_key k l) <-> x = k \/ In x l.
Proof.
  induction l as [|h t IH]; simpl.
  - intuition.
  - destruct (okey_leb k h); simpl; rewrite ?IH; intuition.
Qed.

Lemma In_sort_keys (x : okey) (l : list okey) :
  In x (sort_keys l) <-> In x l.
Proof.
  unfold sort_keys. induction l as [|a l IH]; simpl; [tauto|].
  rewrite In_insert_key, IH. intuition.
Qed.

Lemma loc_ok (p : string) (pv : list joined) (keys : list okey) :
  loc p pv = Ok keys ->
  forall k, In k keys <->
    exists j, In j pv /\ jn_puuid j = Some p /\
              k = (ev_matchId (jn_event j), ev_timestamp (jn_event j)).
Proof.
  unfold loc. intros H k.
  assert (Hk : keys = sort_keys (uniq okey_eqb
            (map (fun j => (ev_matchId (jn_event j), ev_timestamp (jn_event j)))
                 (filter (has_puuid p) pv)))).
  { destruct (filter (has_puuid p) pv); [discriminate H|].
    injection H as <-. reflexivity. }
  rewrite Hk, In_sort_keys, In_uniq by (intros x y; apply okey_eqb_eq).
  rewrite in_map_iff. split.
  - intros (j & <- & Hj). apply filter_In in Hj. destruct Hj as [Hj Hp].
    exists j. split; [exact Hj|]. split; [|reflexivity].
    apply opt_eqb_eq. exact Hp.
  - intros (j & Hj & Hp & ->). exists j. split; [reflexivity|].
    apply filter_In. split; [exact Hj|]. apply opt_eqb_eq. exact Hp.
Qed.

Lemma loc_raise (p : string) (pv : list joined) :
  (forall j, In j pv -> jn_puuid j <> Some p) -> loc p pv = Raise KeyError.
Proof.
  intro H. unfold loc.
  destruct (filter (has_puuid p) pv) as [|j l] eqn:E; [reflexivity|].
  assert (Hj : In j (filter (has_puuid p) pv)) by (rewrite E; left; reflexivity).
  apply filter_In in Hj. destruct Hj as [Hj Hp].
  apply opt_eqb_eq in Hp. elim (H j Hj Hp).
Qed.

Lemma pv_cell_some (pv : list joined) (i : pindex) (c : string) (v : json) :
  pv_cell pv i c = Some v ->
  exists j, In j pv /\ pindex_of j = i /\ ev_metric2 (jn_event j) = c /\
            ev_value (jn_event j) = Some v.
Proof.
  unfold pv_cell.
  destruct (find _ pv) as [j|] eqn:E; [|discriminate].
  intro H. apply find_some in E. destruct E as [Hj E].
  apply andb_true_iff in E. destruct E as [E1 E2].
  exists j. repeat split; auto.
  - apply pindex_eqb_eq. exact E1.
  - apply String.eqb_eq. exact E2.
Qed.


Lemma apply_norma_ok (f : Q -> Q) (v : option json) (o : option Q) :
  apply_norma f v = Ok o ->
  (v = None /\ o = None) \/ (exists q, v = Some (JNum q) /\ o = Some (f q)).
Proof.
  destruct v as [[q|s|l|fs]|]; simpl; intro H; try discriminate H;
    injection H as <-.
  - right. exists q. auto.
  - left. auto.
Qed.

Lemma apply_column_ok (f : Q -> Q) (c : string) (pv : list joined)
    (p : string) (keys : list okey) (vs : list (option Q)) :
  apply_column f c pv p keys = Ok vs ->
  pv_has_column pv c = true /\
  Forall2 (fun k v => apply_norma f (pv_cell pv (Some p, fst k, snd k) c) = Ok v)
          keys vs.
Proof.
  unfold apply_column. destruct (pv_has_column pv c); [|discriminate].
  intro H. split; [reflexivity|]. apply mapM_ok in H. exact H.
Qed.

Lemma table_of_rows (R1 R2 : okey -> option Q -> Prop)
    (keys : list okey) (xs ys : list (option Q)) :
  Forall2 R1 keys xs -> Forall2 R2 keys ys ->
  (forall row, In row (table_of keys xs ys) ->
     In (o_matchId row, o_timestamp row) keys /\
     R1 (o_matchId row, o_timestamp row) (o_x row) /\
     R2 (o_matchId row, o_timestamp row) (o_y row)) /\
  (forall k, In k keys ->
     exists row, In row (table_of keys xs ys) /\
                 (o_matchId row, o_timestamp row) = k).
Proof.
  intros H1. revert ys. induction H1 as [|k x keys xs Hx H1 IH]; intros ys H2.
  - split; simpl; intros ? [].
  - inversion H2 as [|k' y keys' ys' Hy H2' E1 E2]; subst.
    destruct (IH ys' H2') as [IHa IHb]. destruct k as [m t]. split.
    + intros row [<-|Hr]; simpl.
      * auto.
      * destruct (IHa row Hr) as (Ha & Hb & Hc). auto.
    + intros k' [<-|Hk].
      * eexists. split; [left; reflexivity|]. reflexivity.
      * destruct (IHb k' Hk) as (row & Hr & E). exists row. split; [right|]; auto.
Qed.

(** What a successful selection returns: every row stands for an index entry
    of the pivot under the label [p], its cells are the normalized cells of
    that entry, and every index entry under [p] has its row. *)
Lemma select_player_ok (p : string) (pv : list joined) (tbl : list position_row) :
  select_player p pv = Ok tbl ->
  (forall row, In row tbl ->
     (exists j, In j pv /\ jn_puuid j = Some p /\
                ev_matchId (jn_event j) = o_matchId row /\
                ev_timestamp (jn_event j) = o_timestamp row) /\
     apply_norma norma_x
       (pv_cell pv (Some p, o_matchId row, o_timestamp row) "x") = Ok (o_x row) /\
     apply_norma norma_y
       (pv_cell pv (Some p, o_matchId row, o_timestamp row) "y") = Ok (o_y row)) /\
  (forall j, In j pv -> jn_puuid j = Some p ->
     exists row, In row tbl /\
                 o_matchId row = ev_matchId (jn_event j) /\
                 o_timestamp row = ev_timestamp (jn_event j)).
Proof.
  unfold select_player. intro H.
  apply bind_ok in H. destruct H as (keys & Hkeys & H).
  apply bind_ok in H. destruct H as (xs & Hxs & H).
  apply bind_ok in H. destruct H as (ys & Hys & H).
  injection H as <-.
  apply apply_column_ok in Hxs. destruct Hxs as [_ Hxs].
  apply apply_column_ok in Hys. destruct Hys as [_ Hys].
  destruct (table_of_rows _ _ _ _ _ Hxs Hys) as [Ha Hb].
  pose proof (loc_ok _ _ _ Hkeys) as Hloc. split.
  - intros row Hr. destruct (Ha row Hr) as (Hk & Hx & Hy). simpl in Hx, Hy.
    split; [|split; assumption].
    apply Hloc in Hk. destruct Hk as (j & Hj & Hp & E).
    injection E as E1 E2. exists j. auto.
  - intros j Hj Hp.
    destruct (Hb (ev_matchId (jn_event j), ev_timestamp (jn_event j)))
      as (row & Hr & E).
    + apply Hloc. exists j. auto.
    + injection E as E1 E2. exists row. auto.
Qed.

(** ** The join and the pivot *)

Lemma merge_row_In (ix : list index_row) (e : flat_event) (j : joined) :
  In j (merge_row ix e) ->
  jn_event j = e /\
  ((jn_puuid j = None /\ forall r, In r ix -> same_key e r = false) \/
   (exists r, In r ix /\ same_key e r = true /\ jn_puuid j = ix_puuid r)).
Proof.
  unfold merge_row. destruct (filter (same_key e) ix) as [|r0 ms] eqn:E.
  - intros [<-|[]]. simpl. split; [reflexivity|]. left. split; [reflexivity|].
    intros r Hr. destruct (same_key e r) eqn:Hk; [|reflexivity].
    assert (Hin : In r (filter (same_key e) ix)) by (apply filter_In; auto).
    rewrite E in Hin. destruct Hin.
  - rewrite <- E. intro H. apply in_map_iff in H. destruct H as (r & <- & Hr).
    apply filter_In in Hr. destruct Hr as [Hr Hk]. simpl.
    split; [reflexivity|]. right. exists r. auto.
Qed.

Lemma merge_left_In (evs : list flat_event) (ix : list index_row) (j : joined) :
  In j (merge_left evs ix) ->
  In (jn_event j) evs /\
  ((jn_puuid j = None /\ forall r, In r ix -> same_key (jn_event j) r = false) \/
   (exists r, In r ix /\ same_key (jn_event j) r = true /\
              jn_puuid j = ix_puuid r)).
Proof.
  unfold merge_left. intro H. apply in_flat_map in H.
  destruct H as (e & He & Hj). apply merge_row_In in Hj.
  destruct Hj as [<- Hj]. auto.
Qed.

Lemma merge_left_unmatched (evs : list flat_event) (ix : list index_row)
    (e : flat_event) :
  In e evs -> (forall r, In r ix -> same_key e r = false) ->
  In {| jn_event := e; jn_puuid := None |} (merge_left evs ix).
Proof.
  intros He Hno. unfold merge_left. apply in_flat_map. exists e.
  split; [exact He|]. unfold merge_row.
  destruct (filter (same_key e) ix) as [|r0 ms] eqn:E.
  - left. reflexivity.
  - assert (Hin : In r0 (filter (same_key e) ix)) by (rewrite E; left; reflexivity).
    apply filter_In in Hin. destruct Hin as [Hr Hk].
    rewrite (Hno r0 Hr) in Hk. discriminate Hk.
Qed.

Lemma pivot_ok (b : bool) (rows pv : list joined) :
  pivot b rows = Ok pv -> b = true /\ has_dup rows = false /\ pv = rows.
Proof.
  unfold pivot. destruct b; [|discriminate].
  destruct (has_dup rows); [discriminate|].
  intro H. injection H as <-. auto.
Qed.

Lemma position_pivot_ok (tls : list match_timeline) (pv : list joined) :
  position_pivot tls = Ok pv ->
  exists ix evs,
    table_participant_id tls = Ok ix /\ table_frames tls = Ok evs /\
    existsb is_present (map ix_puuid ix) = true /\
    has_dup pv = false /\
    pv = filter is_position (merge_left evs ix).
Proof.
  unfold position_pivot. intro H.
  apply bind_ok in H. destruct H as (ix & Hix & H).
  apply bind_ok in H. destruct H as (evs & Hevs & H).
  apply pivot_ok in H. destruct H as (Hb & Hd & ->).
  exists ix, evs. auto.
Qed.

Lemma get_user_position_ok (tls : list match_timeline) (p : string)
    (tbl : list position_row) :
  get_user_position tls p = Ok tbl ->
  exists pv, position_pivot tls = Ok pv /\ select_player p pv = Ok tbl.
Proof.
  rewrite get_user_position_stages. intro H.
  apply bind_ok in H. exact H.
Qed.

(** A row of the pivot whose identity is not null comes from an event that
    found its key in the participant index. *)
Lemma pivot_row_origin (evs : list flat_event) (ix : list index_row)
    (j : joined) (p : string) :
  In j (filter is_position (merge_left evs ix)) -> jn_puuid j = Some p ->
  In (jn_event j) evs /\ ev_metric (jn_event j) = "position"%string /\
  exists r, In r ix /\ same_key (jn_event j) r = true /\ ix_puuid r = Some p.
Proof.
  intros Hj Hp. apply filter_In in Hj. destruct Hj as [Hj Hpos].
  apply merge_left_In in Hj. destruct Hj as [He Hj].
  split; [exact He|]. split; [apply String.eqb_eq; exact Hpos|].
  destruct Hj as [[Hn _]|(r & Hr & Hk & E)]; [congruence|].
  exists r. split; [exact Hr|]. split; [exact Hk|]. congruence.
Qed.

(** The cells of an output row: a number in a cell is the normalized value
    of an event of the row's group. *)
Lemma output_cell_origin (f : Q -> Q) (pv : list joined) (i : pindex)
    (c : string) (o : option Q) (q : Q) :
  apply_norma f (pv_cell pv i c) = Ok o -> o = Some q ->
  exists j raw, In j pv /\ pindex_of j = i /\ ev_metric2 (jn_event j) = c /\
                ev_value (jn_event j) = Some (JNum raw) /\ q = f raw.
Proof.
  intros H ->. apply apply_norma_ok in H.
  destruct H as [[_ H]|(raw & Hc & H)]; [discriminate H|].
  injection H as ->. apply pv_cell_some in Hc.
  destruct Hc as (j & Hj & Hi & Hm & Hv). exists j, raw. auto.
Qed.

(** ** Normalization *)








(** ** Rows of the returned table *)

Lemma get_user_position_origin (tls : list match_timeline) (p : string)
    (tbl : list position_row) :
  get_user_position tls p = Ok tbl ->
  exists ix evs pv,
    table_participant_id tls = Ok ix /\ table_frames tls = Ok evs /\
    pv = filter is_position (merge_left evs ix) /\
    position_pivot tls = Ok pv /\ select_player p pv = Ok tbl.
Proof.
  intro H. apply get_user_position_ok in H. destruct H as (pv & Hpv & Hs).
  destruct (position_pivot_ok _ _ Hpv) as (ix & evs & Hix & Hevs & _ & _ & E).
  exists ix, evs, pv. auto.
Qed.

Lemma row_cell_origin (f : Q -> Q) (pv : list joined) (p : string)
    (row : position_row) (c : string) (o : option Q) (q : Q) :
  apply_norma f (pv_cell pv (Some p, o_matchId row, o_timestamp row) c) = Ok o ->
  o = Some q ->
  exists j raw, In j pv /\ in_group p row j /\ ev_metric2 (jn_event j) = c /\
                ev_value (jn_event j) = Some (JNum raw) /\ q = f raw.
Proof.
  intros H E. destruct (output_cell_origin _ _ _ _ _ _ H E)
    as (j & raw & Hj & Hi & Hm & Hv & Hq).
  exists j, raw. unfold in_group, pindex_of in *. injection Hi as H1 H2 H3.
  auto 10.
Qed.

(** C4.  Every row of the returned table stands for a group of the pivot
    whose identity label is the queried puuid, and each number in it is the
    normalized value of a position event joined to that puuid; the pivot it
    is selected from is computed from the documents alone, the puuid enters
    with the selection. *)
Theorem identity_scoping (tls : list match_timeline) (p : string)
    (tbl : list position_row) :
  get_user_position tls p = Ok tbl ->
  exists pv,
    position_pivot tls = Ok pv /\ select_player p pv = Ok tbl /\
    forall row, In row tbl ->
      (exists j, In j pv /\ in_group p row j) /\
      (forall q, o_x row = Some q ->
         exists j raw, In j pv /\ in_group p row j /\
           ev_metric2 (jn_event j) = "x"%string /\
           ev_value (jn_event j) = Some (JNum raw) /\ q = norma_x raw) /\
      (forall q, o_y row = Some q ->
         exists j raw, In j pv /\ in_group p row j /\
           ev_metric2 (jn_event j) = "y"%string /\
           ev_value (jn_event j) = Some (JNum raw) /\ q = norma_y raw).
Proof.
  intro H. apply get_user_position_ok in H. destruct H as (pv & Hpv & Hs).
  exists pv. split; [exact Hpv|]. split; [exact Hs|].
  destruct (select_player_ok _ _ _ Hs) as [Ha _].
  intros row Hr. destruct (Ha row Hr) as ((j & Hj & Hp & Hm & Ht) & Hx & Hy).
  split; [|split].
  - exists j. unfold in_group. auto.
  - intros q E. exact (row_cell_origin _ _ _ _ _ _ _ Hx E).
  - intros q E. exact (row_cell_origin _ _ _ _ _ _ _ Hy E).
Qed.

Lemma identity_scoping_witness :
  get_user_position scenario "P1" = Ok scenario_table /\
  exists pv, position_pivot scenario = Ok pv /\
             select_player "P1" pv = Ok scenario_table.
Proof.
  split; [reflexivity|].
  destruct (@identity_scoping scenario "P1" scenario_table eq_refl)
    as (pv & Hpv & Hs & _).
  exists pv. split; assumption.
Defined.

(** C5.  The join is a left join on (matchId, participantId): an event whose
    key is in no index row stays in the joined table with a null identity,
    and a joined row has a null identity whenever its key is unmatched; every
    row of the returned table has events behind it, and every event behind
    it has its (matchId, participantId) key in the participant index, under
    the queried puuid. *)
Theorem join_soundness (tls : list match_timeline) (p : string)
    (tbl : list position_row) :
  get_user_position tls p = Ok tbl ->
  exists ix evs,
    table_participant_id tls = Ok ix /\ table_frames tls = Ok evs /\
    (forall e, In e evs -> (forall r, In r ix -> same_key e r = false) ->
       In {| jn_event := e; jn_puuid := None |} (merge_left evs ix)) /\
    (forall j, In j (merge_left evs ix) ->
       (forall r, In r ix -> same_key (jn_event j) r = false) ->
       jn_puuid j = None /\ forall row, ~ in_group p row j) /\
    (forall row, In row tbl ->
       (exists j, In j (filter is_position (merge_left evs ix)) /\
                  in_group p row j) /\
       (forall j, In j (filter is_position (merge_left evs ix)) ->
          in_group p row j ->
          In (jn_event j) evs /\
          exists r, In r ix /\
            ix_matchId r = ev_matchId (jn_event j) /\
            ix_participantId r = ev_participantId (jn_event j) /\
            ix_puuid r = Some p)).
Proof.
  intro H. apply get_user_position_origin in H.
  destruct H as (ix & evs & pv & Hix & Hevs & E & Hpv & Hs).
  exists ix, evs. split; [exact Hix|]. split; [exact Hevs|].
  split; [intros e; apply merge_left_unmatched|].
  split.
  - intros j Hj Hno. apply merge_left_In in Hj.
    destruct Hj as [_ [[Hn _]|(r & Hr & Hk & _)]].
    + split; [exact Hn|]. intros row (Hp & _). congruence.
    + rewrite (Hno r Hr) in Hk. discriminate Hk.
  - intros row Hr. subst pv.
    destruct (select_player_ok _ _ _ Hs) as [Ha _].
    destruct (Ha row Hr) as ((j & Hj & Hp & Hm & Ht) & _ & _).
    split.
    + exists j. unfold in_group. auto.
    + intros j' Hj' (Hp' & _ & _).
      destruct (pivot_row_origin _ _ _ _ Hj' Hp') as (He & _ & r & Hin & Hk & Hq).
      split; [exact He|]. exists r.
      unfold same_key in Hk. apply andb_true_iff in Hk. destruct Hk as [K1 K2].
      apply String.eqb_eq in K1. apply String.eqb_eq in K2. auto.
Qed.

Lemma join_soundness_witness :
  get_user_position unmatched_participant "P1" = Ok scenario_table /\
  exists ix evs,
    table_participant_id unmatched_participant = Ok ix /\
    table_frames unmatched_participant = Ok evs /\
    In {| jn_event := position_event 60000 "M" "2" "x" 3000;
          jn_puuid := None |} (merge_left evs ix).
Proof.
  split; [reflexivity|].
  destruct (@join_soundness unmatched_participant "P1" scenario_table eq_refl)
    as (ix & evs & Hix & Hevs & Hkeep & _).
  exists ix, evs. split; [exact Hix|]. split; [exact Hevs|].
  vm_compute in Hix. injection Hix as <-.
  vm_compute in Hevs. injection Hevs as <-.
  apply Hkeep.
  - right. right. left. reflexivity.
  - intros r [<-|[]]. reflexivity.
Defined.




(** ** The final selection *)

(** C10.  When no row of the pivot carries the target's puuid the selection
    [loc] raises KeyError, and the call never returns an empty table. *)
Theorem selection_of_absent_player_raises (tls : list match_timeline)
    (p : string) :
  (forall pv, position_pivot tls = Ok pv ->
     (forall j, In j pv -> jn_puuid j <> Some p) ->
     loc p pv = Raise KeyError /\ get_user_position tls p = Raise KeyError) /\
  (forall tbl, get_user_position tls p = Ok tbl -> tbl <> []).
Proof.
  split.
  - intros pv Hpv Hno. pose proof (loc_raise p pv Hno) as Hloc.
    split; [exact Hloc|].
    rewrite get_user_position_stages, Hpv. simpl.
    unfold select_player. rewrite Hloc. reflexivity.
  - intros tbl H E. subst tbl.
    apply get_user_position_ok in H. destruct H as (pv & Hpv & Hs).
    destruct (select_player_ok _ _ _ Hs) as [_ Hb].
    unfold select_player in Hs.
    destruct (loc p pv) as [keys|e] eqn:Hloc; [|discriminate Hs].
    unfold loc in Hloc.
    destruct (filter (has_puuid p) pv) as [|j l] eqn:Ef; [discriminate Hloc|].
    assert (Hj : In j (filter (has_puuid p) pv)) by (rewrite Ef; left; reflexivity).
    apply filter_In in Hj. destruct Hj as [Hj Hp]. apply opt_eqb_eq in Hp.
    destruct (Hb j Hj Hp) as (row & [] & _).
Qed.

Lemma selection_of_absent_player_raises_witness :
  (exists pv, position_pivot scenario = Ok pv /\
              forall j, In j pv -> jn_puuid j <> Some "P2"%string) /\
  get_user_position scenario "P2" = Raise KeyError.
Proof.
  assert (Hpv : position_pivot scenario =
    Ok [{| jn_event := position_event 60000 "M" "1" "x" 1000;
           jn_puuid := Some "P1"%string |};
        {| jn_event := position_event 60000 "M" "1" "y" 2000;
           jn_puuid := Some "P1"%string |}]) by reflexivity.
  assert (Hno : forall j,
    In j [{| jn_event := position_event 60000 "M" "1" "x" 1000;
             jn_puuid := Some "P1"%string |};
          {| jn_event := position_event 60000 "M" "1" "y" 2000;
             jn_puuid := Some "P1"%string |}] ->
    jn_puuid j <> Some "P2"%string).
  { intros j [<-|[<-|[]]]; simpl; discriminate. }
  split.
  - eexists. split; [exact Hpv | exact Hno].
  - exact (proj2 (proj1 (selection_of_absent_player_raises scenario "P2")
                    _ Hpv Hno)).
Defined.

(** ** Determinism *)



(** ** Malformed documents *)

Lemma pull_participants_raise (t : match_timeline) (e : exn) :
  pull_participants t = Raise e -> e = KeyError.
Proof.
  unfold pull_participants.
  destruct (tl_info t) as [i|]; [destruct (participants i)|]; congruence.
Qed.

Lemma pull_frames_raise (t : match_timeline) (e : exn) :
  pull_frames t = Raise e -> e = KeyError.
Proof.
  unfold pull_frames.
  destruct (tl_metadata t); [|congruence].
  destruct (tl_info t) as [i|]; [destruct (frames i)|]; congruence.
Qed.

Lemma matchId_of_metadata_raise (r : raw_index_row) (e : exn) :
  matchId_of_metadata r = Raise e -> e = TypeError.
Proof.
  unfold matchId_of_metadata. destruct (rix_metadata r); congruence.
Qed.

Lemma table_participant_id_raise (tls : list match_timeline) (e : exn) :
  table_participant_id tls = Raise e -> e = KeyError \/ e = TypeError.
Proof.
  unfold table_participant_id, normalize_participants.
  destruct (mapM pull_participants tls) as [ls|e1] eqn:E1; simpl.
  - destruct (mapM matchId_of_metadata (List.concat ls)) as [rms|e2] eqn:E2; simpl.
    + destruct (existsb _ _); [discriminate|]. intro H. injection H as <-. auto.
    + intro H. injection H as <-. right.
      exact (mapM_raise_only _ _ TypeError _ matchId_of_metadata_raise E2).
  - intro H. injection H as <-. left.
    exact (mapM_raise_only _ _ KeyError _ pull_participants_raise E1).
Qed.

Lemma missing_roster_raises (tls : list match_timeline) (t : match_timeline) :
  In t tls -> pull_participants t = Raise KeyError ->
  table_participant_id tls = Raise KeyError.
Proof.
  intros Hin Ht. unfold table_participant_id, normalize_participants.
  destruct (mapM_raise pull_participants tls t _ Hin Ht) as (e & He).
  rewrite He. simpl.
  rewrite (mapM_raise_only _ _ KeyError _ pull_participants_raise He).
  reflexivity.
Qed.

Lemma missing_frames_raises (tls : list match_timeline) (t : match_timeline)
    (e : exn) :
  In t tls -> pull_frames t = Raise e -> table_frames tls = Raise KeyError.
Proof.
  intros Hin Ht. unfold table_frames, normalize_frames.
  destruct (mapM_raise pull_frames tls t _ Hin Ht) as (e' & He).
  rewrite He. simpl.
  rewrite (mapM_raise_only _ _ KeyError _ pull_frames_raise He).
  reflexivity.
Qed.

(** C8.  A document without the roster region ([info] or
    [info.participants]) makes the call raise KeyError; a document without
    the frames region makes the flattening raise KeyError and the call raise
    (KeyError, or the TypeError of a roster row without [metadata] that is
    met first).  No table is returned in either case. *)
Theorem malformed_document_raises (tls : list match_timeline)
    (t : match_timeline) (p : string) :
  In t tls ->
  ((tl_info t = None \/
    (exists i, tl_info t = Some i /\ participants i = None)) ->
   get_user_position tls p = Raise KeyError) /\
  ((tl_info t = None \/
    (exists i, tl_info t = Some i /\ frames i = None)) ->
   table_frames tls = Raise KeyError /\
   (get_user_position tls p = Raise KeyError \/
    get_user_position tls p = Raise TypeError)).
Proof.
  intro Hin. split.
  - intro H.
    assert (Ht : pull_participants t = Raise KeyError).
    { unfold pull_participants. destruct H as [->|(i & -> & ->)]; reflexivity. }
    unfold get_user_position.
    rewrite (missing_roster_raises tls t Hin Ht). reflexivity.
  - intro H.
    assert (Ht : pull_frames t = Raise KeyError).
    { unfold pull_frames. destruct (tl_metadata t); [|reflexivity].
      destruct H as [->|(i & -> & ->)]; reflexivity. }
    pose proof (missing_frames_raises tls t _ Hin Ht) as Hf.
    split; [exact Hf|].
    unfold get_user_position. rewrite Hf.
    destruct (table_participant_id tls) as [ix|e] eqn:E; simpl; [auto|].
    destruct (table_participant_id_raise tls _ E) as [->| ->]; auto.
Qed.

Lemma malformed_document_raises_witness :
  In no_frames (scenario ++ [no_frames]) /\
  (exists i, tl_info no_frames = Some i /\ frames i = None) /\
  get_user_position scenario "P1" = Ok scenario_table /\
  table_frames (scenario ++ [no_frames]) = Raise KeyError.
Proof.
  assert (Hin : In no_frames (scenario ++ [no_frames]))
    by (right; left; reflexivity).
  assert (Hf : exists i, tl_info no_frames = Some i /\ frames i = None)
    by (eexists; split; reflexivity).
  split; [exact Hin|]. split; [exact Hf|]. split; [reflexivity|].
  exact (proj1 (proj2 (malformed_document_raises
                         (scenario ++ [no_frames]) no_frames "P1" Hin)
                 (or_intror Hf))).
Defined.

(** ** The participant index *)

Lemma pull_participants_ok (t : match_timeline) (l : list raw_index_row) :
  pull_participants t = Ok l -> l = map raw_of (roster_of [t]).
Proof.
  unfold pull_participants, roster_of. simpl.
  destruct (tl_info t) as [i|]; [|discriminate].
  destruct (participants i) as [es|]; [|discriminate].
  intro H. injection H as <-. rewrite app_nil_r, map_map. reflexivity.
Qed.

Lemma normalize_participants_ok (tls : list match_timeline)
    (df : list raw_index_row) :
  normalize_participants tls = Ok df -> df = map raw_of (roster_of tls).
Proof.
  unfold normalize_participants. revert df.
  induction tls as [|t tls IH]; simpl; intros df H.
  - injection H as <-. reflexivity.
  - destruct (pull_participants t) as [l|] eqn:Et; [|discriminate H].
    simpl in H. destruct (mapM pull_participants tls) as [ls|]; [|discriminate H].
    simpl in H. injection H as <-. simpl.
    rewrite map_app, <- (IH (List.concat ls) eq_refl).
    apply pull_participants_ok in Et. simpl in Et. rewrite app_nil_r in Et.
    rewrite Et. reflexivity.
Qed.

Lemma matchId_of_metadata_ok (l : list (roster_entry * option string))
    (rms : list (raw_index_row * string)) :
  mapM matchId_of_metadata (map raw_of l) = Ok rms ->
  Forall2 (fun em rm => fst rm = raw_of em /\ snd em = Some (snd rm)) l rms.
Proof.
  revert rms. induction l as [|em l IH]; simpl; intros rms H.
  - injection H as <-. constructor.
  - apply bind_ok in H. destruct H as (rm & Hrm & H).
    apply bind_ok in H. destruct H as (rms' & Hrms & H). injection H as <-.
    constructor; [|apply IH; exact Hrms].
    unfold matchId_of_metadata in Hrm. simpl in Hrm.
    destruct (snd em) as [m|]; [|discriminate Hrm].
    injection Hrm as <-. auto.
Qed.

Lemma Forall2_map_right {A B C : Type} (R : A -> C -> Prop) (g : B -> C)
    (l : list A) (l' : list B) :
  Forall2 (fun a b => R a (g b)) l l' -> Forall2 R l (map g l').
Proof. induction 1; simpl; constructor; assumption. Qed.

(** A roster entry without [puuid] keeps its row in the index, with a null
    identity. *)
Lemma roster_entry_without_puuid_is_indexed :
  table_participant_id roster_without_puuid =
    Ok [{| ix_participantId := "1"; ix_matchId := "M"; ix_puuid := Some "P1"%string |};
        {| ix_participantId := "2"; ix_matchId := "M"; ix_puuid := None |}] /\
  ~ (forall tls ix r,
       table_participant_id tls = Ok ix -> In r ix -> ix_puuid r <> None).
Proof.
  split; [reflexivity|].
  intro H.
  apply (H roster_without_puuid _
           {| ix_participantId := "2"; ix_matchId := "M"; ix_puuid := None |}
           eq_refl).
  - right. left. reflexivity.
  - reflexivity.
Qed.

(** C6, as the code has it.  The index has one row per roster entry, in
    roster order, with the entry's puuid (null when it has none), the
    matchId of its document and its participantId in string form; no entry
    is left out.  The string form is the decimal numeral of an integer when
    no entry lacks the key, the string itself for a string, and "nan" for an
    entry without the key. *)
Theorem participant_index_rows (tls : list match_timeline)
    (ix : list index_row) :
  table_participant_id tls = Ok ix ->
  Forall2 (fun em r =>
             ix_puuid r = re_puuid (fst em) /\
             Some (ix_matchId r) = snd em /\
             ix_participantId r =
               astype_str (pid_column tls) (re_participantId (fst em)))
          (roster_of tls) ix /\
  List.length ix = List.length (roster_of tls) /\
  (forall z, existsb is_missing (pid_column tls) = false ->
             astype_str (pid_column tls) (Some (PInt z)) = str_of_Z z) /\
  (forall s, astype_str (pid_column tls) (Some (PStr s)) = s) /\
  astype_str (pid_column tls) None = "nan"%string /\
  (exists em, In em (roster_of tls) /\ re_participantId (fst em) <> None).
Proof.
  unfold table_participant_id. intro H.
  apply bind_ok in H. destruct H as (df & Hdf & H).
  apply bind_ok in H. destruct H as (rms & Hrms & H).
  apply normalize_participants_ok in Hdf. subst df.
  assert (Hcol : map rix_participantId (map raw_of (roster_of tls))
                 = pid_column tls).
  { unfold pid_column. rewrite map_map. reflexivity. }
  rewrite Hcol in H.
  destruct (existsb is_present (pid_column tls)) eqn:Hex; [|discriminate H].
  injection H as <-.
  apply matchId_of_metadata_ok in Hrms.
  assert (HF : Forall2 (fun em r =>
             ix_puuid r = re_puuid (fst em) /\
             Some (ix_matchId r) = snd em /\
             ix_participantId r =
               astype_str (pid_column tls) (re_participantId (fst em)))
          (roster_of tls)
          (map (fun rm : raw_index_row * string =>
               {| ix_participantId :=
                    astype_str (pid_column tls) (rix_participantId (fst rm));
                  ix_matchId := snd rm;
                  ix_puuid := rix_puuid (fst rm) |}) rms)).
  { apply Forall2_map_right. revert Hrms. apply Forall2_impl.
    intros em rm [E1 E2]. simpl. rewrite E1, E2. simpl. auto. }
  split; [exact HF|]. split; [symmetry; exact (Forall2_length HF)|].
  split.
  { intros z Hm. unfold astype_str. rewrite Hm.
    destruct (existsb is_PStr (pid_column tls)); reflexivity. }
  split; [reflexivity|]. split; [reflexivity|].
  apply existsb_exists in Hex. destruct Hex as (o & Ho & Hp).
  unfold pid_column in Ho. apply in_map_iff in Ho.
  destruct Ho as (em & <- & Hem). exists em. split; [exact Hem|].
  destruct (re_participantId (fst em)); [discriminate|discriminate Hp].
Qed.

Lemma participant_index_rows_witness :
  table_participant_id roster_without_puuid =
    Ok [{| ix_participantId := "1"; ix_matchId := "M"; ix_puuid := Some "P1"%string |};
        {| ix_participantId := "2"; ix_matchId := "M"; ix_puuid := None |}] /\
  List.length (roster_of roster_without_puuid) = 2%nat.
Proof.
  split; [reflexivity|].
  destruct (participant_index_rows roster_without_puuid _ eq_refl)
    as (_ & <- & _).
  reflexivity.
Defined.

(** ** Duplicate index entries *)

Lemma occurs_twice_filter {A : Type} (P : A -> bool) (x y : A) (l : list A) :
  P x = true -> P y = true -> occurs_twice x y l ->
  occurs_twice x y (filter P l).
Proof.
  intros Hx Hy (l1 & l2 & l3 & ->).
  exists (filter P l1), (filter P l2), (filter P l3).
  rewrite filter_app. simpl. rewrite Hx, filter_app. simpl. rewrite Hy.
  reflexivity.
Qed.

Lemma occurs_twice_map {A B : Type} (f : A -> B) (x y : A) (l : list A) :
  occurs_twice x y l -> occurs_twice (f x) (f y) (map f l).
Proof.
  intros (l1 & l2 & l3 & ->). exists (map f l1), (map f l2), (map f l3).
  rewrite map_app. simpl. rewrite map_app. reflexivity.
Qed.

Lemma occurs_twice_flat_map {A B : Type} (g : A -> list B) (x y : B)
    (l : list A) (a : A) :
  In a l -> occurs_twice x y (g a) -> occurs_twice x y (flat_map g l).
Proof.
  intros Hin (l1 & l2 & l3 & E). apply in_split in Hin.
  destruct Hin as (la & lb & ->).
  exists (flat_map g la ++ l1)%list, l2, (l3 ++ flat_map g lb)%list.
  rewrite flat_map_app. simpl. rewrite E, <- !app_assoc. simpl.
  rewrite <- app_assoc. reflexivity.
Qed.

Lemma occurs_twice_has_dup (x y : joined) (l : list joined) :
  occurs_twice x y l -> same_entry x y = true -> has_dup l = true.
Proof.
  intros (l1 & l2 & l3 & ->) Hxy. induction l1 as [|a l1 IH]; simpl.
  - apply orb_true_iff. left. apply existsb_exists. exists y.
    split; [|exact Hxy]. apply in_or_app. right. left. reflexivity.
  - rewrite IH. apply orb_true_r.
Qed.

Lemma merge_row_matched (ix : list index_row) (e : flat_event) (r : index_row) :
  In r ix -> same_key e r = true ->
  merge_row ix e =
    map (fun r => {| jn_event := e; jn_puuid := ix_puuid r |})
        (filter (same_key e) ix).
Proof.
  intros Hr Hk. unfold merge_row.
  destruct (filter (same_key e) ix) as [|r0 ms] eqn:E; [|reflexivity].
  assert (Hin : In r (filter (same_key e) ix)) by (apply filter_In; auto).
  rewrite E in Hin. destruct Hin.
Qed.

(** Two roster entries under one key and different identities: nothing is
    raised, the positions reported under the key are returned for either
    identity. *)
Lemma duplicate_index_entries_pass :
  table_participant_id (duplicate_roster "P1" "P2") =
    Ok [{| ix_participantId := "1"; ix_matchId := "M"; ix_puuid := Some "P1"%string |};
        {| ix_participantId := "1"; ix_matchId := "M"; ix_puuid := Some "P2"%string |}] /\
  get_user_position (duplicate_roster "P1" "P2") "P1" = Ok scenario_table /\
  get_user_position (duplicate_roster "P1" "P2") "P2" = Ok scenario_table /\
  ~ (forall tls p ix r1 r2,
       table_participant_id tls = Ok ix -> occurs_twice r1 r2 ix ->
       ix_participantId r1 = ix_participantId r2 ->
       ix_matchId r1 = ix_matchId r2 ->
       is_ok (get_user_position tls p) = false).
Proof.
  split; [reflexivity|]. split; [reflexivity|]. split; [reflexivity|].
  intro H.
  assert (Hok : is_ok (get_user_position (duplicate_roster "P1" "P2") "P1")
                = false).
  { apply (H (duplicate_roster "P1" "P2") "P1"%string _
             {| ix_participantId := "1"; ix_matchId := "M";
                ix_puuid := Some "P1"%string |}
             {| ix_participantId := "1"; ix_matchId := "M";
                ix_puuid := Some "P2"%string |} eq_refl);
      [exists [], [], []; reflexivity | reflexivity | reflexivity]. }
  discriminate Hok.
Qed.

(** C7, as the code has it.  The merge does not look for duplicate keys: an
    event is joined to every index row of its key.  The call fails only
    through the pivot: when two index rows of one key carry the same puuid
    and a position event has that key, the pivot finds its index entry twice
    and raises ValueError. *)
Theorem duplicate_index_entries (tls : list match_timeline) (p : string)
    (ix : list index_row) (evs : list flat_event)
    (r1 r2 : index_row) (e : flat_event) (q : string) :
  table_participant_id tls = Ok ix -> table_frames tls = Ok evs ->
  occurs_twice r1 r2 ix ->
  ix_participantId r1 = ix_participantId r2 ->
  ix_matchId r1 = ix_matchId r2 ->
  In e evs -> same_key e r1 = true ->
  (In {| jn_event := e; jn_puuid := ix_puuid r1 |} (merge_left evs ix) /\
   In {| jn_event := e; jn_puuid := ix_puuid r2 |} (merge_left evs ix)) /\
  (ev_metric e = "position"%string ->
   ix_puuid r1 = Some q -> ix_puuid r2 = Some q ->
   get_user_position tls p = Raise ValueError).
Proof.
  intros Hix Hevs Htw Hp Hm He Hk1.
  assert (Hk2 : same_key e r2 = true).
  { unfold same_key in *. rewrite <- Hp, <- Hm. exact Hk1. }
  assert (Hr1 : In r1 ix).
  { destruct Htw as (l1 & l2 & l3 & ->). apply in_or_app. right. left.
    reflexivity. }
  assert (Hfm : occurs_twice {| jn_event := e; jn_puuid := ix_puuid r1 |}
                             {| jn_event := e; jn_puuid := ix_puuid r2 |}
                             (merge_left evs ix)).
  { apply (occurs_twice_flat_map (merge_row ix) _ _ evs e He).
    rewrite (merge_row_matched ix e r1 Hr1 Hk1).
    apply (occurs_twice_map
             (fun r => {| jn_event := e; jn_puuid := ix_puuid r |})).
    apply occurs_twice_filter; assumption. }
  split.
  - destruct Hfm as (l1 & l2 & l3 & ->). split.
    + apply in_or_app. right. left. reflexivity.
    + apply in_or_app. right. right. apply in_or_app. right. left. reflexivity.
  - intros Hpos Hq1 Hq2. unfold get_user_position.
    rewrite Hix, Hevs. simpl.
    assert (Hcol : existsb is_present (map ix_puuid ix) = true).
    { apply existsb_exists. exists (ix_puuid r1).
      split; [apply in_map; exact Hr1 | rewrite Hq1; reflexivity]. }
    rewrite Hcol. unfold pivot.
    assert (Hdup : has_dup (filter is_position (merge_left evs ix)) = true).
    { eapply occurs_twice_has_dup.
      - apply occurs_twice_filter; [| |exact Hfm];
          unfold is_position; simpl; rewrite Hpos; reflexivity.
      - unfold same_entry. apply andb_true_iff. split.
        + apply pindex_eqb_eq. unfold pindex_of. simpl.
          rewrite Hq1, Hq2. reflexivity.
        + apply String.eqb_refl. }
    rewrite Hdup. reflexivity.
Qed.

Lemma duplicate_index_entries_witness :
  occurs_twice
    {| ix_participantId := "1"; ix_matchId := "M"; ix_puuid := Some "P1"%string |}
    {| ix_participantId := "1"; ix_matchId := "M"; ix_puuid := Some "P1"%string |}
    [{| ix_participantId := "1"; ix_matchId := "M"; ix_puuid := Some "P1"%string |};
     {| ix_participantId := "1"; ix_matchId := "M"; ix_puuid := Some "P1"%string |}] /\
  get_user_position (duplicate_roster "P1" "P1") "P1" = Raise ValueError.
Proof.
  assert (Htw : occurs_twice
    {| ix_participantId := "1"; ix_matchId := "M"; ix_puuid := Some "P1"%string |}
    {| ix_participantId := "1"; ix_matchId := "M"; ix_puuid := Some "P1"%string |}
    [{| ix_participantId := "1"; ix_matchId := "M"; ix_puuid := Some "P1"%string |};
     {| ix_participantId := "1"; ix_matchId := "M"; ix_puuid := Some "P1"%string |}])
    by (exists [], [], []; reflexivity).
  split; [exact Htw|].
  refine (proj2 (duplicate_index_entries (duplicate_roster "P1" "P1") "P1"
                   _ _ _ _ (position_event 60000 "M" "1" "x" 1000) "P1"
                   eq_refl eq_refl Htw eq_refl eq_refl
                   (or_introl eq_refl) eq_refl) eq_refl eq_refl eq_refl).
Defined.

(** ** The pattern of the flattener *)





















(** ** When the flattener succeeds *)

Lemma mapM_total {A B : Type} (f : A -> result B) (l : list A) :
  (forall a, In a l -> exists b, f a = Ok b) -> exists l', mapM f l = Ok l'.
Proof.
  induction l as [|a l IH]; simpl; intro H.
  - eexists. reflexivity.
  - destruct (H a (or_introl eq_refl)) as (b & ->).
    destruct IH as (l' & ->); [intros x Hx; apply H; right; exact Hx|].
    simpl. eexists. reflexivity.
Qed.

Lemma pull_frames_has_frames (t : match_timeline) :
  has_frames t = true <-> exists l, pull_frames t = Ok l.
Proof.
  unfold has_frames, pull_frames.
  destruct (tl_metadata t) as [m|]; simpl.
  - destruct (tl_info t) as [i|]; [destruct (frames i) as [l|]|]; simpl;
      split; intro H; try discriminate H; try reflexivity;
      try (destruct H as (l' & H); discriminate H).
    eexists. reflexivity.
  - split; [discriminate|]. intros (l & H). discriminate H.
Qed.

Lemma pull_frames_rows (t : match_timeline) (l : list frame_row) :
  pull_frames t = Ok l ->
  Forall2 (fun fm r => fw_timestamp r = fr_timestamp (fst fm) /\
                       Some (fw_matchId r) = snd fm /\
                       fw_record r = frame_record (fst fm))
          (frames_of [t]) l.
Proof.
  unfold pull_frames, frames_of. simpl.
  destruct (tl_metadata t) as [m|]; [|discriminate].
  destruct (tl_info t) as [i|]; [|discriminate].
  destruct (frames i) as [fs|]; [|discriminate].
  intro H. injection H as <-. rewrite app_nil_r.
  induction fs as [|f fs IH]; simpl; constructor; auto.
Qed.

Lemma normalize_frames_rows (tls : list match_timeline) (rows : list frame_row) :
  normalize_frames tls = Ok rows ->
  forallb has_frames tls = true /\
  Forall2 (fun fm r => fw_timestamp r = fr_timestamp (fst fm) /\
                       Some (fw_matchId r) = snd fm /\
                       fw_record r = frame_record (fst fm))
          (frames_of tls) rows.
Proof.
  unfold normalize_frames. revert rows.
  induction tls as [|t tls IH]; simpl; intros rows H.
  - injection H as <-. split; [reflexivity|constructor].
  - destruct (pull_frames t) as [l|] eqn:Et; [|discriminate H]. simpl in H.
    destruct (mapM pull_frames tls) as [ls|]; [|discriminate H]. simpl in H.
    injection H as <-. destruct (IH (List.concat ls) eq_refl) as [Hall HF].
    split.
    + apply andb_true_iff. split; [|exact Hall].
      apply pull_frames_has_frames. eexists. exact Et.
    + simpl. apply Forall2_app; [|exact HF].
      apply pull_frames_rows in Et. unfold frames_of in Et. simpl in Et.
      rewrite app_nil_r in Et. exact Et.
Qed.

Lemma normalize_frames_total (tls : list match_timeline) :
  forallb has_frames tls = true -> exists rows, normalize_frames tls = Ok rows.
Proof.
  intro H. unfold normalize_frames.
  destruct (mapM_total pull_frames tls) as (ls & ->).
  - intros t Ht. apply pull_frames_has_frames.
    rewrite forallb_forall in H. apply H. exact Ht.
  - simpl. eexists. reflexivity.
Qed.

Lemma table_frames_raise (tls : list match_timeline) (e : exn) :
  table_frames tls = Raise e -> e = KeyError.
Proof.
  unfold table_frames, normalize_frames.
  destruct (mapM pull_frames tls) as [ls|e1] eqn:E; simpl.
  - destruct (List.concat ls); congruence.
  - intro H. injection H as <-.
    exact (mapM_raise_only _ _ KeyError _ pull_frames_raise E).
Qed.

(** X1.  [table_frames] returns a table exactly when every document has
    [metadata], [info] and [info.frames] and the documents hold at least one
    frame; in every other case, the empty list of documents included, it
    raises KeyError and nothing else. *)
Theorem table_frames_succeeds (tls : list match_timeline) :
  ((exists evs, table_frames tls = Ok evs) <->
   forallb has_frames tls = true /\ frames_of tls <> []) /\
  ((forallb has_frames tls = false \/ frames_of tls = []) ->
   table_frames tls = Raise KeyError) /\
  table_frames [] = Raise KeyError.
Proof.
  assert (Hok : (exists evs, table_frames tls = Ok evs) <->
                forallb has_frames tls = true /\ frames_of tls <> []).
  { split.
    - intros (evs & H). unfold table_frames in H.
      apply bind_ok in H. destruct H as (rows & Hrows & H).
      apply normalize_frames_rows in Hrows. destruct Hrows as [Hall HF].
      split; [exact Hall|]. intro E. rewrite E in HF.
      inversion HF; subst. discriminate H.
    - intros [Hall Hne]. destruct (normalize_frames_total tls Hall) as (rows & Hrows).
      unfold table_frames. rewrite Hrows. simpl.
      destruct rows as [|r rows]; [|eexists; reflexivity].
      apply normalize_frames_rows in Hrows. destruct Hrows as [_ HF].
      inversion HF as [E|]; subst. elim Hne. symmetry. assumption. }
  split; [exact Hok|]. split; [|reflexivity].
  intro H. destruct (table_frames tls) as [evs|e] eqn:E.
  - destruct (proj1 Hok (ex_intro _ evs eq_refl)) as [Hall Hne].
    destruct H as [H|H]; [congruence | contradiction].
  - rewrite (table_frames_raise tls e E). reflexivity.
Qed.

Lemma table_frames_succeeds_witness :
  (exists evs, table_frames scenario = Ok evs) /\
  forallb has_frames [no_frames] = false /\
  table_frames [no_frames] = Raise KeyError.
Proof.
  split; [|split; [reflexivity|]].
  - apply (proj1 (table_frames_succeeds scenario)).
    split; [reflexivity | discriminate].
  - apply (proj1 (proj2 (table_frames_succeeds [no_frames]))).
    left. reflexivity.
Defined.

(** ** When the index builder succeeds *)

Lemma pull_participants_has_roster (t : match_timeline) :
  has_roster t = true <-> exists l, pull_participants t = Ok l.
Proof.
  unfold has_roster, pull_participants.
  destruct (tl_info t) as [i|]; [destruct (participants i) as [l|]|]; simpl;
    split; intro H; try discriminate H; try reflexivity;
    try (destruct H as (l' & H); discriminate H).
  eexists. reflexivity.
Qed.

Lemma normalize_participants_total (tls : list match_timeline) :
  forallb has_roster tls = true ->
  normalize_participants tls = Ok (map raw_of (roster_of tls)).
Proof.
  intro H. unfold normalize_participants.
  destruct (mapM_total pull_participants tls) as (ls & E).
  - intros t Ht. apply pull_participants_has_roster.
    rewrite forallb_forall in H. apply H. exact Ht.
  - assert (E' : normalize_participants tls = Ok (List.concat ls))
      by (unfold normalize_participants; rewrite E; reflexivity).
    rewrite E. simpl. rewrite <- (normalize_participants_ok tls _ E').
    reflexivity.
Qed.

Lemma normalize_participants_raise (tls : list match_timeline) :
  forallb has_roster tls = false ->
  normalize_participants tls = Raise KeyError.
Proof.
  intro H. unfold normalize_participants.
  destruct (mapM pull_participants tls) as [ls|e] eqn:E; simpl.
  - apply mapM_ok in E.
    assert (Hall : forallb has_roster tls = true).
    { clear H. induction E as [|t l tls ls Ht E IH]; simpl; [reflexivity|].
      rewrite IH, andb_true_r. apply pull_participants_has_roster.
      eexists. exact Ht. }
    congruence.
  - rewrite (mapM_raise_only _ _ KeyError _ pull_participants_raise E).
    reflexivity.
Qed.

Lemma matchId_of_metadata_cases (l : list (roster_entry * option string)) :
  if forallb (fun em => is_present (snd em)) l
  then exists rms, mapM matchId_of_metadata (map raw_of l) = Ok rms
  else mapM matchId_of_metadata (map raw_of l) = Raise TypeError.
Proof.
  induction l as [|[e [m|]] l IH].
  - simpl. eexists. reflexivity.
  - change (forallb (fun em => is_present (snd em)) ((e, Some m) :: l))
      with (forallb (fun em : roster_entry * option string =>
                       is_present (snd em)) l).
    change (mapM matchId_of_metadata (map raw_of ((e, Some m) :: l)))
      with (bind (Ok (raw_of (e, Some m), m))
              (fun b => bind (mapM matchId_of_metadata (map raw_of l))
                          (fun bs => Ok (b :: bs)))).
    destruct (forallb _ l).
    + destruct IH as (rms & ->). simpl. eexists. reflexivity.
    + rewrite IH. reflexivity.
  - reflexivity.
Qed.

(** X2.  [table_participant_id] returns an index exactly when every document
    has [info.participants], every roster entry sits in a document with
    [metadata], and at least one roster entry has a [participantId].  A
    missing roster raises KeyError; otherwise a roster entry of a document
    without [metadata] raises TypeError; otherwise a roster without any
    [participantId], the empty input included, raises KeyError.  A missing
    [puuid] never raises here. *)
Theorem table_participant_id_succeeds (tls : list match_timeline) :
  ((exists ix, table_participant_id tls = Ok ix) <->
   forallb has_roster tls = true /\
   forallb (fun em => is_present (snd em)) (roster_of tls) = true /\
   existsb is_present (pid_column tls) = true) /\
  (forallb has_roster tls = false ->
   table_participant_id tls = Raise KeyError) /\
  (forallb has_roster tls = true ->
   forallb (fun em => is_present (snd em)) (roster_of tls) = false ->
   table_participant_id tls = Raise TypeError) /\
  (forallb has_roster tls = true ->
   forallb (fun em => is_present (snd em)) (roster_of tls) = true ->
   existsb is_present (pid_column tls) = false ->
   table_participant_id tls = Raise KeyError).
Proof.
  assert (H1 : forallb has_roster tls = false ->
               table_participant_id tls = Raise KeyError).
  { intro H. unfold table_participant_id.
    rewrite (normalize_participants_raise tls H). reflexivity. }
  assert (Hcol : map rix_participantId (map raw_of (roster_of tls))
                 = pid_column tls).
  { unfold pid_column. rewrite map_map. reflexivity. }
  assert (H2 : forallb has_roster tls = true ->
     forallb (fun em => is_present (snd em)) (roster_of tls) = false ->
     table_participant_id tls = Raise TypeError).
  { intros Ha Hb. unfold table_participant_id.
    rewrite (normalize_participants_total tls Ha). simpl.
    pose proof (matchId_of_metadata_cases (roster_of tls)) as Hc.
    rewrite Hb in Hc. rewrite Hc. reflexivity. }
  assert (H3 : forallb has_roster tls = true ->
     forallb (fun em => is_present (snd em)) (roster_of tls) = true ->
     forall b, existsb is_present (pid_column tls) = b ->
     if b then exists ix, table_participant_id tls = Ok ix
     else table_participant_id tls = Raise KeyError).
  { intros Ha Hb b Hc. unfold table_participant_id.
    rewrite (normalize_participants_total tls Ha). simpl.
    pose proof (matchId_of_metadata_cases (roster_of tls)) as Hm.
    rewrite Hb in Hm. destruct Hm as (rms & ->). simpl.
    rewrite Hcol, Hc. destruct b; [eexists|]; reflexivity. }
  split; [|split; [exact H1|split; [exact H2|]]].
  - split.
    + intros (ix & Hix).
      destruct (forallb has_roster tls) eqn:Ea;
        [|rewrite (H1 eq_refl) in Hix; discriminate Hix].
      destruct (forallb (fun em => is_present (snd em)) (roster_of tls)) eqn:Eb;
        [|rewrite (H2 eq_refl eq_refl) in Hix; discriminate Hix].
      destruct (existsb is_present (pid_column tls)) eqn:Ec; [auto|].
      pose proof (H3 eq_refl eq_refl false eq_refl) as Hr. simpl in Hr.
      rewrite Hr in Hix. discriminate Hix.
    + intros (Ha & Hb & Hc). exact (H3 Ha Hb true Hc).
  - intros Ha Hb Hc. exact (H3 Ha Hb false Hc).
Qed.

Lemma table_participant_id_succeeds_witness :
  (exists ix, table_participant_id roster_without_puuid = Ok ix) /\
  table_participant_id [] = Raise KeyError /\
  table_participant_id
    [{| tl_metadata := None;
        tl_info := Some {| participants := Some [roster_entry_of 1 "P1"];
                           frames := Some [] |} |}] = Raise TypeError.
Proof.
  split; [|split].
  - apply (proj1 (table_participant_id_succeeds roster_without_puuid)).
    repeat split; reflexivity.
  - apply (proj2 (proj2 (proj2 (table_participant_id_succeeds []))));
      reflexivity.
  - apply (proj1 (proj2 (proj2 (table_participant_id_succeeds _))));
      reflexivity.
Defined.

(** ** The index of the returned table *)

Lemma okey_leb_total (a b : okey) : okey_leb a b = false -> okey_leb b a = true.
Proof.
  unfold okey_leb. rewrite (String.compare_antisym (fst b) (fst a)).
  destruct (String.compare (fst a) (fst b)); simpl; try discriminate; auto.
  intro H. apply Z.leb_gt in H. apply Z.leb_le. lia.
Qed.

Lemma insert_key_HdRel (h k : okey) (l : list okey) :
  HdRel (fun a b => okey_leb a b = true) h l -> okey_leb h k = true ->
  HdRel (fun a b => okey_leb a b = true) h (insert_key k l).
Proof.
  intros Hl Hk. destruct l as [|x l]; simpl.
  - constructor. exact Hk.
  - destruct (okey_leb k x); constructor; [exact Hk|].
    inversion Hl; assumption.
Qed.

Lemma insert_key_Sorted (k : okey) (l : list okey) :
  Sorted (fun a b => okey_leb a b = true) l ->
  Sorted (fun a b => okey_leb a b = true) (insert_key k l).
Proof.
  induction l as [|h t IH]; simpl; intro H.
  - constructor; constructor.
  - destruct (okey_leb k h) eqn:E.
    + constructor; [exact H|]. constructor. exact E.
    + apply Sorted_inv in H. destruct H as [Ht Hh]. constructor.
      * apply IH. exact Ht.
      * apply insert_key_HdRel; [exact Hh|]. apply okey_leb_total. exact E.
Qed.

Lemma sort_keys_Sorted (l : list okey) :
  Sorted (fun a b => okey_leb a b = true) (sort_keys l).
Proof.
  unfold sort_keys. induction l as [|a l IH]; simpl.
  - constructor.
  - apply insert_key_Sorted. exact IH.
Qed.

Lemma insert_key_NoDup (k : okey) (l : list okey) :
  ~ In k l -> NoDup l -> NoDup (insert_key k l).
Proof.
  induction l as [|h t IH]; simpl; intros Hk Hl.
  - constructor; [intros []|constructor].
  - destruct (okey_leb k h).
    + constructor; assumption.
    + inversion Hl as [|x l' Hh Ht]; subst. constructor.
      * rewrite In_insert_key. intros [->|H]; [apply Hk; left; reflexivity|].
        contradiction.
      * apply IH; [intro H; apply Hk; right; exact H | exact Ht].
Qed.

Lemma sort_keys_NoDup (l : list okey) : NoDup l -> NoDup (sort_keys l).
Proof.
  unfold sort_keys. induction 1 as [|a l Ha Hl IH]; simpl.
  - constructor.
  - apply insert_key_NoDup; [|exact IH].
    fold (sort_keys l). rewrite In_sort_keys. exact Ha.
Qed.

Lemma uniq_okey_NoDup (l : list okey) : NoDup (uniq okey_eqb l).
Proof.
  induction l as [|a l IH]; simpl.
  - constructor.
  - constructor.
    + rewrite filter_In. intros [_ H].
      rewrite (proj2 (okey_eqb_eq a a) eq_refl) in H. discriminate H.
    + apply NoDup_filter. exact IH.
Qed.

Lemma table_of_keys (R1 R2 : okey -> option Q -> Prop)
    (keys : list okey) (xs ys : list (option Q)) :
  Forall2 R1 keys xs -> Forall2 R2 keys ys ->
  map okey_of (table_of keys xs ys) = keys.
Proof.
  intros H1. revert ys. induction H1 as [|k x keys xs Hx H1 IH]; intros ys H2.
  - reflexivity.
  - inversion H2 as [|k' y keys' ys' Hy H2' E1 E2]; subst. simpl.
    rewrite (IH ys' H2'). destruct k. reflexivity.
Qed.

Lemma select_player_index (p : string) (pv : list joined)
    (tbl : list position_row) :
  select_player p pv = Ok tbl ->
  (forall k, In k (map okey_of tbl) <->
     exists j, In j pv /\ jn_puuid j = Some p /\
               k = (ev_matchId (jn_event j), ev_timestamp (jn_event j))) /\
  NoDup (map okey_of tbl) /\
  Sorted (fun a b => okey_leb a b = true) (map okey_of tbl).
Proof.
  unfold select_player. intro Hs.
  apply bind_ok in Hs. destruct Hs as (keys & Hkeys & Hs).
  apply bind_ok in Hs. destruct Hs as (xs & Hxs & Hs).
  apply bind_ok in Hs. destruct Hs as (ys & Hys & Hs). injection Hs as <-.
  apply apply_column_ok in Hxs. destruct Hxs as [_ Hxs].
  apply apply_column_ok in Hys. destruct Hys as [_ Hys].
  rewrite (table_of_keys _ _ _ _ _ Hxs Hys).
  split; [exact (loc_ok _ _ _ Hkeys)|].
  assert (Hk : exists l, keys = sort_keys (uniq okey_eqb l)).
  { unfold loc in Hkeys.
    destruct (filter (has_puuid p) pv) as [|j0 l0] eqn:Ef;
      [discriminate Hkeys|].
    rewrite <- Ef in Hkeys. eexists. injection Hkeys as <-. reflexivity. }
  destruct Hk as (l & ->). split.
  - apply sort_keys_NoDup, uniq_okey_NoDup.
  - apply sort_keys_Sorted.
Qed.

(** X3.  The returned table has one row for each (matchId, timestamp) at
    which the pivot has a row under the queried puuid, and no other row; no
    index entry occurs twice, and the rows come in ascending order of matchId
    and, within a match, of timestamp. *)
Theorem returned_index (tls : list match_timeline) (p : string)
    (tbl : list position_row) :
  get_user_position tls p = Ok tbl ->
  exists pv, position_pivot tls = Ok pv /\
    (forall k, In k (map okey_of tbl) <->
       exists j, In j pv /\ jn_puuid j = Some p /\
                 k = (ev_matchId (jn_event j), ev_timestamp (jn_event j))) /\
    NoDup (map okey_of tbl) /\
    Sorted (fun a b => okey_leb a b = true) (map okey_of tbl).
Proof.
  intro H. apply get_user_position_ok in H. destruct H as (pv & Hpv & Hs).
  exists pv. split; [exact Hpv|].
  apply select_player_index. exact Hs.
Qed.

Lemma returned_index_witness :
  get_user_position empty_second_frame "P1" =
    Ok [{| o_matchId := "M"; o_timestamp := 0;
           o_x := Some (norma_x 1000); o_y := Some (norma_y 2000) |};
        {| o_matchId := "M"; o_timestamp := 60000;
           o_x := None; o_y := None |}] /\
  NoDup [("M"%string, 0%Z); ("M"%string, 60000%Z)].
Proof.
  split; [reflexivity|].
  destruct (returned_index empty_second_frame "P1" _ eq_refl)
    as (pv & _ & _ & Hnd & _).
  exact Hnd.
Defined.

(** ** No position is lost *)

Lemma same_entry_sym (a b : joined) : same_entry a b = same_entry b a.
Proof.
  unfold same_entry. rewrite (String.eqb_sym (ev_metric2 (jn_event a))).
  f_equal. destruct (pindex_eqb (pindex_of b) (pindex_of a)) eqn:E.
  - apply pindex_eqb_eq. apply pindex_eqb_eq in E. congruence.
  - destruct (pindex_eqb (pindex_of a) (pindex_of b)) eqn:E'; [|reflexivity].
    apply pindex_eqb_eq in E'. rewrite E' in E.
    rewrite (proj2 (pindex_eqb_eq _ _) eq_refl) in E. discriminate E.
Qed.

Lemma has_dup_false_unique (l : list joined) (a b : joined) :
  has_dup l = false -> In a l -> In b l -> same_entry a b = true -> a = b.
Proof.
  induction l as [|x l IH]; simpl; intros H Ha Hb Hab; [destruct Ha|].
  apply orb_false_iff in H. destruct H as [Hx Hl].
  assert (Hno : forall y, In y l -> same_entry x y = false).
  { intros y Hy. destruct (same_entry x y) eqn:E; [|reflexivity].
    assert (Hex : existsb (same_entry x) l = true)
      by (apply existsb_exists; exists y; auto).
    congruence. }
  destruct Ha as [<-|Ha], Hb as [<-|Hb].
  - reflexivity.
  - rewrite (Hno b Hb) in Hab. discriminate Hab.
  - rewrite same_entry_sym, (Hno a Ha) in Hab. discriminate Hab.
  - exact (IH Hl Ha Hb Hab).
Qed.

Lemma pv_cell_unique (pv : list joined) (j : joined) :
  has_dup pv = false -> In j pv ->
  pv_cell pv (pindex_of j) (ev_metric2 (jn_event j)) = ev_value (jn_event j).
Proof.
  intros Hd Hj. unfold pv_cell.
  destruct (find _ pv) as [j'|] eqn:E.
  - apply find_some in E. destruct E as [Hj' E].
    rewrite (has_dup_false_unique pv j' j Hd Hj' Hj E). reflexivity.
  - apply (find_none _ _ E) in Hj.
    rewrite (proj2 (pindex_eqb_eq _ _) eq_refl), String.eqb_refl in Hj.
    discriminate Hj.
Qed.

Lemma merge_left_matched (evs : list flat_event) (ix : list index_row)
    (e : flat_event) (r : index_row) :
  In e evs -> In r ix -> same_key e r = true ->
  In {| jn_event := e; jn_puuid := ix_puuid r |} (merge_left evs ix).
Proof.
  intros He Hr Hk. unfold merge_left. apply in_flat_map. exists e.
  split; [exact He|]. rewrite (merge_row_matched ix e r Hr Hk).
  apply in_map_iff. exists r. split; [reflexivity|].
  apply filter_In. auto.
Qed.

(** X4.  A successful call loses no position of the target: every position
    event whose (matchId, participantId) key the index maps to the queried
    puuid has its row in the returned table, at its match and timestamp, and
    the x (or y) cell of that row is the normalized value of the event when
    the value is a number and missing when the event has no value. *)
Theorem positions_are_kept (tls : list match_timeline) (p : string)
    (tbl : list position_row) (ix : list index_row) (evs : list flat_event)
    (e : flat_event) (r : index_row) :
  get_user_position tls p = Ok tbl ->
  table_participant_id tls = Ok ix -> table_frames tls = Ok evs ->
  In e evs -> ev_metric e = "position"%string ->
  In r ix -> same_key e r = true -> ix_puuid r = Some p ->
  exists row, In row tbl /\
    o_matchId row = ev_matchId e /\ o_timestamp row = ev_timestamp e /\
    (ev_metric2 e = "x"%string ->
     match ev_value e with
     | None => o_x row = None
     | Some (JNum q) => o_x row = Some (norma_x q)
     | Some _ => False
     end) /\
    (ev_metric2 e = "y"%string ->
     match ev_value e with
     | None => o_y row = None
     | Some (JNum q) => o_y row = Some (norma_y q)
     | Some _ => False
     end).
Proof.
  intros H Hix Hevs He Hpos Hr Hk Hp.
  apply get_user_position_ok in H. destruct H as (pv & Hpv & Hs).
  destruct (position_pivot_ok _ _ Hpv) as (ix' & evs' & Hix' & Hevs' & _ & Hd & E).
  rewrite Hix in Hix'. injection Hix' as <-.
  rewrite Hevs in Hevs'. injection Hevs' as <-.
  set (j := {| jn_event := e; jn_puuid := Some p |}).
  assert (Hj : In j pv).
  { subst pv. apply filter_In. split.
    - unfold j. rewrite <- Hp. apply merge_left_matched; assumption.
    - unfold is_position, j. simpl. rewrite Hpos. reflexivity. }
  destruct (select_player_ok _ _ _ Hs) as [Ha Hb].
  destruct (Hb j Hj eq_refl) as (row & Hrow & Hm & Ht). simpl in Hm, Ht.
  exists row. split; [exact Hrow|]. split; [exact Hm|]. split; [exact Ht|].
  destruct (Ha row Hrow) as (_ & Hx & Hy).
  pose proof (pv_cell_unique pv j Hd Hj) as Hc.
  unfold pindex_of, j in Hc. simpl in Hc. rewrite <- Hm, <- Ht in Hc.
  split; intro Hc2; rewrite Hc2 in Hc.
  - rewrite Hc in Hx. destruct (ev_value e) as [[q|s|l|fs]|]; simpl in Hx;
      try discriminate Hx; injection Hx as <-; reflexivity.
  - rewrite Hc in Hy. destruct (ev_value e) as [[q|s|l|fs]|]; simpl in Hy;
      try discriminate Hy; injection Hy as <-; reflexivity.
Qed.

Lemma positions_are_kept_witness :
  get_user_position unmatched_participant "P1" = Ok scenario_table /\
  exists row, In row scenario_table /\ o_x row = Some (norma_x 1000).
Proof.
  split; [reflexivity|].
  destruct (positions_are_kept unmatched_participant "P1" scenario_table
              _ _ (position_event 60000 "M" "1" "x" 1000)
              {| ix_participantId := "1"; ix_matchId := "M";
                 ix_puuid := Some "P1"%string |}
              eq_refl eq_refl eq_refl (or_introl eq_refl) eq_refl
              (or_introl eq_refl) eq_refl eq_refl)
    as (row & Hrow & _ & _ & Hx & _).
  exists row. split; [exact Hrow|]. exact (Hx eq_refl).
Defined.
